(** * uniquepetswiki-uploads: the media-routing worker

    A shallow embedding of [src/worker.js], the edge worker that serves
    [/uploads/...] requests from a GitHub repository, and the properties of
    its specification.

    Conventions of the embedding.
    - JavaScript strings are [string]; the string methods the worker calls
      ([startsWith], [endsWith], [substring], [replace] with an anchored
      pattern) are written out below.
    - A JavaScript object used as a record of headers is a list of
      properties in insertion order; property names are compared exactly,
      as JavaScript compares them.
    - A [Headers] object is its header list; names are matched without
      regard to letter case, as the Fetch standard matches them.
    - The platform classes [URL], [Request] and [Response] are modelled by
      records holding the fields the worker reads and writes, and their
      constructors by functions that fail where the constructors throw.
    - [fetch] is the only effect.  The handler runs in a small monad that
      threads the log of outbound requests and carries JavaScript's two
      completions of a computation: a value, or a thrown error. *)

From Stdlib Require Import String Ascii ZArith List Lia.
From stdpp Require Import base option list gmap strings sorting.

Open Scope string_scope.
Open Scope Z_scope.

(* stdpp keeps [simpl] from unfolding string concatenation; the proofs below
   compute with string literals. *)
#[local] Arguments String.append !_ _ / : simpl nomatch.

(** ** JavaScript string methods *)

Module JS.

(** [s.substring(n)]: the characters of [s] from index [n] on. *)
Definition substring (s : string) (n : nat) : string :=
  String.substring n (String.length s - n) s.

(** [s.startsWith(p)]. *)
Definition startsWith (s p : string) : bool := String.prefix p s.

(** [s.endsWith(p)]: [p] is looked for at index [s.length - p.length]. *)
Definition endsWith (s p : string) : bool :=
  (String.length p <=? String.length s)%nat &&
  String.eqb (substring s (String.length s - String.length p)) p.

(** [s.replace(/^pat/, repl)] for a pattern [pat] without metacharacters:
    the anchor lets the pattern match at index 0 only, and without the
    [g] flag there is at most one replacement. *)
Definition replace_anchored (pat repl s : string) : string :=
  if startsWith s pat then repl +:+ substring s (String.length pat) else s.

End JS.

(** ** Configuration (worker.js, lines 19-41) *)

Definition GITHUB_USERNAME : string := "crabvn".
Definition GITHUB_REPO : string := "uniquepetswiki-uploads".
Definition GITHUB_BRANCH : string := "main".

Definition HOSTING_METHOD : string := "jsdelivr".

(** The three template literals of [BASE_URLS]. *)
Definition BASE_URL_raw : string :=
  "https://raw.githubusercontent.com/" +:+ GITHUB_USERNAME +:+ "/"
    +:+ GITHUB_REPO +:+ "/" +:+ GITHUB_BRANCH.
Definition BASE_URL_pages : string :=
  "https://" +:+ GITHUB_USERNAME +:+ ".github.io/" +:+ GITHUB_REPO.
Definition BASE_URL_jsdelivr : string :=
  "https://cdn.jsdelivr.net/gh/" +:+ GITHUB_USERNAME +:+ "/"
    +:+ GITHUB_REPO +:+ "@" +:+ GITHUB_BRANCH.

Definition BASE_URLS : gmap string string :=
  <["jsdelivr" := BASE_URL_jsdelivr]>
  (<["pages" := BASE_URL_pages]>
  (<["raw" := BASE_URL_raw]> ∅)).

(** [a || b] where [a] is a string or [undefined] and [b] a string:
    [undefined] and the empty string are falsy. *)
Definition js_or (a : option string) (b : string) : string :=
  match a with
  | None => b
  | Some s => if String.eqb s "" then b else s
  end.

(** [BASE_URLS[method] || BASE_URLS.jsdelivr]. *)
Definition getBaseUrlFor (method : string) : string :=
  js_or (BASE_URLS !! method) BASE_URL_jsdelivr.

(** [getBaseUrl()]. *)
Definition getBaseUrl : string := getBaseUrlFor HOSTING_METHOD.

(** ** Path translation (worker.js, lines 49-54) *)

Definition PREFIX : string := "/uploads/".

(** [path.replace(/^\/uploads\//, '')]. *)
Definition getGitHubPath (path : string) : string :=
  JS.replace_anchored PREFIX "" path.

(** ** Joining base and path (worker.js, lines 71-74 and 94-98) *)

(** [githubPath.startsWith('/') ? githubPath.substring(1) : githubPath]. *)
Definition cleanPath (githubPath : string) : string :=
  if JS.startsWith githubPath "/" then JS.substring githubPath 1 else githubPath.

(** [baseUrl.endsWith('/') ? `${baseUrl}${cleanPath}` : `${baseUrl}/${cleanPath}`]. *)
Definition targetUrlString (baseUrl githubPath : string) : string :=
  if JS.endsWith baseUrl "/"
  then baseUrl +:+ cleanPath githubPath
  else baseUrl +:+ "/" +:+ cleanPath githubPath.

(** ['wp-content' + url.pathname]. *)
Definition altPath (pathname : string) : string := "wp-content" +:+ pathname.

Definition cleanAltPath (pathname : string) : string :=
  if JS.startsWith (altPath pathname) "/"
  then JS.substring (altPath pathname) 1
  else altPath pathname.

Definition altUrlString (baseUrl pathname : string) : string :=
  if JS.endsWith baseUrl "/"
  then baseUrl +:+ cleanAltPath pathname
  else baseUrl +:+ "/" +:+ cleanAltPath pathname.

(** ** The platform's URL class

    The record holds the components the WHATWG parser produces for an
    absolute [http(s)] URL, each in serialised form.  The parser of the model
    cuts the input at the delimiters; it does not percent-encode, remove dot
    segments or normalise the host, so it agrees with the platform on strings
    that are already serialised URLs, which is what the worker feeds it: the
    inbound [request.url], and the fixed base followed by a piece of a parsed
    pathname. *)

Record URL := mkURL {
  origin : string;            (* scheme, "://", host and port *)
  pathname : string;
  query : option string;      (* without the leading "?" *)
  fragment : option string    (* without the leading "#" *)
}.

(** The longest prefix of [s] whose characters satisfy [p], and the rest. *)
Fixpoint span (p : ascii → bool) (s : string) : string * string :=
  match s with
  | EmptyString => (EmptyString, EmptyString)
  | String c s' =>
      if p c
      then match span p s' with (taken, rest) => (String c taken, rest) end
      else (EmptyString, s)
  end.

Definition is_host_char (c : ascii) : bool :=
  negb (Ascii.eqb c "/" || Ascii.eqb c "?" || Ascii.eqb c "#").
Definition is_path_char (c : ascii) : bool :=
  negb (Ascii.eqb c "?" || Ascii.eqb c "#").
Definition is_query_char (c : ascii) : bool :=
  negb (Ascii.eqb c "#").

Definition strip_scheme (s : string) : option (string * string) :=
  if JS.startsWith s "https://" then Some ("https://", JS.substring s 8)
  else if JS.startsWith s "http://" then Some ("http://", JS.substring s 7)
  else None.

Definition parse_query (s : string) : option string * string :=
  match s with
  | String "?" r =>
      match span is_query_char r with (q, rest) => (Some q, rest) end
  | _ => (None, s)
  end.

Definition parse_fragment (s : string) : option string :=
  match s with
  | String "#" r => Some r
  | _ => None
  end.

(** [new URL(s)]; [None] stands for the [TypeError] the constructor throws. *)
Definition URL_new (s : string) : option URL :=
  match strip_scheme s with
  | None => None
  | Some (scheme, rest) =>
      match span is_host_char rest with
      | (host, rest1) =>
          if String.eqb host "" then None
          else
            match span is_path_char rest1 with
            | (path, rest2) =>
                match parse_query rest2 with
                | (q, rest3) =>
                    Some {| origin := scheme +:+ host;
                            pathname := if String.eqb path "" then "/" else path;
                            query := q;
                            fragment := parse_fragment rest3 |}
                end
            end
      end
  end.

(** The [search] getter: empty when the query is null or empty. *)
Definition search (u : URL) : string :=
  match query u with
  | None => ""
  | Some q => if String.eqb q "" then "" else "?" +:+ q
  end.

(** The [search] setter: the empty string clears the query; otherwise one
    leading "?" is dropped and the rest becomes the query. *)
Definition set_search (u : URL) (value : string) : URL :=
  if String.eqb value ""
  then {| origin := origin u; pathname := pathname u;
          query := None; fragment := fragment u |}
  else {| origin := origin u; pathname := pathname u;
          query := Some (if JS.startsWith value "?" then JS.substring value 1 else value);
          fragment := fragment u |}.

(** [u.toString()], the serialisation of [u]. *)
Definition URL_toString (u : URL) : string :=
  origin u +:+ pathname u
    +:+ match query u with Some q => "?" +:+ q | None => "" end
    +:+ match fragment u with Some f => "#" +:+ f | None => "" end.


(** ** The platform's Headers class and header records *)

(** ASCII lower case, as used to compare header names. *)
Definition lower_ascii (c : ascii) : ascii :=
  let n := nat_of_ascii c in
  if (65 <=? n)%nat && (n <=? 90)%nat then ascii_of_nat (n + 32) else c.

Fixpoint lower (s : string) : string :=
  match s with
  | EmptyString => EmptyString
  | String c s' => String (lower_ascii c) (lower s')
  end.

(** A [Headers] object is its header list: the name and value pairs in the
    order in which they were appended. *)
Abbreviation Headers := (list (string * string)).

(** A JavaScript object whose properties are strings, in insertion order. *)
Abbreviation JSObject := (list (string * string)).

(** The values of the headers whose name matches [name], in order. *)
Fixpoint values_of (h : Headers) (name : string) : list string :=
  match h with
  | [] => []
  | (k, v) :: h' =>
      if String.eqb (lower k) (lower name)
      then v :: values_of h' name
      else values_of h' name
  end.

(** Values are combined with a comma and a space. *)
Fixpoint join (values : list string) : string :=
  match values with
  | [] => ""
  | [v] => v
  | v :: values' => v +:+ ", " +:+ join values'
  end.

(** [headers.get(name)]: the combined value, or [null]. *)
Definition Headers_get (h : Headers) (name : string) : option string :=
  match values_of h name with
  | [] => None
  | values => Some (join values)
  end.

(** [headers.append(name, value)]. *)
Definition Headers_append (h : Headers) (name value : string) : Headers :=
  (h ++ [(name, value)])%list.

Definition string_le (a b : string) : Prop := String.leb a b = true.

#[global] Instance string_le_dec a b : Decision (string_le a b).
Proof. unfold string_le. apply _. Defined.

(** The names a [Headers] object iterates over: lower case, without
    duplicates, sorted. *)
Definition header_names (h : Headers) : list string :=
  merge_sort string_le (remove_dups (map (λ kv, lower kv.1) h)).

(** What iteration yields for one name: the combined value, except for
    [set-cookie], whose values are yielded one by one. *)
Definition header_block (h : Headers) (name : string) : list (string * string) :=
  if String.eqb name "set-cookie"
  then map (λ v, (name, v)) (values_of h name)
  else [(name, join (values_of h name))].

(** Iterating a [Headers] object. *)
Definition Headers_entries (h : Headers) : list (string * string) :=
  flat_map (header_block h) (header_names h).

(** [o[k] = v]: an existing property keeps its place, a new one goes last. *)
Fixpoint Object_set (o : JSObject) (k v : string) : JSObject :=
  match o with
  | [] => [(k, v)]
  | (k', v') :: o' =>
      if String.eqb k' k then (k', v) :: o' else (k', v') :: Object_set o' k v
  end.

(** [Object.fromEntries(entries)]: properties are set in iteration order, so
    a later pair replaces the value of an earlier one with the same name. *)
Definition Object_fromEntries (entries : list (string * string)) : JSObject :=
  foldl (λ o kv, Object_set o kv.1 kv.2) [] entries.

(** [new Headers(init)] for a record [init]: each property is appended. *)
Definition Headers_new (init : JSObject) : Headers :=
  foldl (λ h kv, Headers_append h kv.1 kv.2) [] init.

(** ** Requests and responses *)

(** A body is [null] or a stream, modelled by the text it carries. *)
Abbreviation Body := (option string).

Module Request.
Record t := mk {
  url : string;
  method : string;
  headers : Headers;
  body : Body
}.
End Request.

Module Response.
Record t := mk {
  body : Body;
  status : Z;
  statusText : string;
  headers : Headers
}.
End Response.

Record Error := mkError { message : string }.

(** The [Request] constructor rejects the methods [CONNECT], [TRACE] and
    [TRACK], and a body on [GET] or [HEAD]; names are matched without regard
    to letter case. *)
Definition forbidden_method (method : string) : bool :=
  String.eqb (lower method) "connect" || String.eqb (lower method) "trace"
  || String.eqb (lower method) "track".

Definition bodiless_method (method : string) : bool :=
  String.eqb (lower method) "get" || String.eqb (lower method) "head".

Definition Request_accepts (method : string) (body : Body) : bool :=
  negb (forbidden_method method) &&
  negb (bodiless_method method && bool_decide (is_Some body)).

(** [new Request(url, { method, headers, body })]; [None] stands for the
    [TypeError] the constructor throws. *)
Definition Request_new (url method : string) (init : JSObject) (body : Body)
    : option Request.t :=
  if Request_accepts method body
  then Some {| Request.url := url; Request.method := method;
               Request.headers := Headers_new init; Request.body := body |}
  else None.

(** [new Response(text, { status })] for a string: the constructor gives the
    response the content type of text. *)
Definition Response_text (text : string) (status : Z) : Response.t :=
  {| Response.body := Some text;
     Response.status := status;
     Response.statusText := "";
     Response.headers := [("content-type", "text/plain;charset=UTF-8")] |}.

(** [new Response(stream, { status, statusText, headers })] for the body of
    another response. *)
Definition Response_stream (body : Body) (status : Z) (statusText : string)
    (init : JSObject) : Response.t :=
  {| Response.body := body;
     Response.status := status;
     Response.statusText := statusText;
     Response.headers := Headers_new init |}.

(** ** Computations that fetch and may throw *)

Inductive completion (A : Type) : Type :=
  | Normal (a : A)
  | Throw (e : Error).
Arguments Normal {A} a.
Arguments Throw {A} e.

(** What the network answers to the [n]-th outbound request of a run: a
    response, or a transport error. *)
Abbreviation Network := (nat → Request.t → completion Response.t).

(** A computation reads the network, appends to the log of the requests sent
    so far, and completes normally or by throwing. *)
Definition M (A : Type) : Type :=
  Network → list Request.t →
  completion A * list Request.t.

Definition M_ret {A} (a : A) : M A := λ _ log, (Normal a, log).

Definition M_bind {A B} (f : A → M B) (m : M A) : M B :=
  λ net log,
    match m net log with
    | (Normal a, log') => f a net log'
    | (Throw e, log') => (Throw e, log')
    end.

#[global] Instance M_mret : MRet M := @M_ret.
#[global] Instance M_mbind : MBind M := @M_bind.

Definition throw {A} (e : Error) : M A := λ _ log, (Throw e, log).

(** [try { m } catch (error) { h error }]. *)
Definition try_catch {A} (m : M A) (h : Error → M A) : M A :=
  λ net log,
    match m net log with
    | (Normal a, log') => (Normal a, log')
    | (Throw e, log') => h e net log'
    end.

(** [await fetch(request)]. *)
Definition fetch (request : Request.t) : M Response.t :=
  λ net log, (net (List.length log) request, (log ++ [request])%list).

(** [new URL(s)] as a computation: a [TypeError] when [s] does not parse. *)
Definition new_URL (s : string) : M URL :=
  match URL_new s with
  | Some u => mret u
  | None => throw (mkError "Invalid URL")
  end.

(** [new Request(...)] as a computation: a [TypeError] when the constructor
    rejects the method or the body. *)
Definition new_Request (url method : string) (init : JSObject) (body : Body)
    : M Request.t :=
  match Request_new url method init body with
  | Some q => mret q
  | None => throw (mkError "Invalid method or body")
  end.

(** ** The handler (worker.js, lines 56-144) *)

Definition USER_AGENT : string := "Mozilla/5.0 (compatible; CloudflareWorker/1.0)".

(** The header record of both outbound requests:
    [{...Object.fromEntries(request.headers), 'User-Agent': ...}]. *)
Definition outboundInit (request : Request.t) : JSObject :=
  Object_set (Object_fromEntries (Headers_entries (Request.headers request)))
    "User-Agent" USER_AGENT.

(** The header record of a relayed response:
    [{...Object.fromEntries(response.headers), 'Access-Control-Allow-Origin': '*', ...}]. *)
Definition relayInit (response : Response.t) : JSObject :=
  Object_set
    (Object_set
       (Object_set (Object_fromEntries (Headers_entries (Response.headers response)))
          "Access-Control-Allow-Origin" "*")
       "Access-Control-Allow-Methods" "GET, HEAD, OPTIONS")
    "Cache-Control" "public, max-age=31536000, immutable".

(** [new Response(response.body, { status, statusText, headers })]. *)
Definition relay (response : Response.t) : Response.t :=
  Response_stream (Response.body response) (Response.status response)
    (Response.statusText response) (relayInit response).

Module Worker.

(** [async fetch(request, env)].  The [return] inside the nested [if] is
    the [Some] of [early]. *)
Definition fetch {Env : Type} (request : Request.t) (env : Env) : M Response.t :=
  url ← new_URL (Request.url request);
  if negb (JS.startsWith (pathname url) "/uploads/") then
    mret (Response_text "Not Found" 404)
  else
    let githubPath := getGitHubPath (pathname url) in
    let baseUrl := getBaseUrl in
    targetUrl ← new_URL (targetUrlString baseUrl githubPath);
    let targetUrl := set_search targetUrl (search url) in
    newRequest ← new_Request (URL_toString targetUrl) (Request.method request)
                    (outboundInit request) (Request.body request);
    try_catch
      (response ← fetch newRequest;
       early ←
         (if Response.status response =? 404 then
            altUrl ← new_URL (altUrlString baseUrl (pathname url));
            let altUrl := set_search altUrl (search url) in
            altRequest ← new_Request (URL_toString altUrl) (Request.method request)
                            (outboundInit request) None;
            altResponse ← fetch altRequest;
            if Response.status altResponse =? 200
            then mret (Some (relay altResponse))
            else mret None
          else mret None);
       match early with
       | Some final => mret final
       | None => mret (relay response)
       end)
      (λ error,
         mret (Response_text ("Error fetching from GitHub: " +:+ message error) 500)).

(** Running the handler on a fresh log. *)
Definition run {Env : Type} (net : Network)
    (request : Request.t) (env : Env) : completion Response.t * list Request.t :=
  fetch request env net [].

End Worker.

(** ** Closed forms used in the statements

    What the handler sends, written as functions of the inbound request and
    its parsed URL; lemma [fetch_unfold] proves that the handler sends exactly
    these. *)

(** The configured base, split at the end of its host. *)
Definition BASE_HOST : string := "cdn.jsdelivr.net".
Definition BASE_DIR : string := "gh/crabvn/uniquepetswiki-uploads@main".

(** Every character of [s] satisfies [p]. *)
Fixpoint all_chars (p : ascii → bool) (s : string) : bool :=
  match s with
  | EmptyString => true
  | String c s' => p c && all_chars p s'
  end.

Definition outboundHeaders (request : Request.t) : Headers :=
  Headers_new (outboundInit request).

Definition primaryRequest (request : Request.t) (url : URL) : Request.t :=
  {| Request.url :=
       targetUrlString getBaseUrl (getGitHubPath (pathname url)) +:+ search url;
     Request.method := Request.method request;
     Request.headers := outboundHeaders request;
     Request.body := Request.body request |}.

Definition alternateRequest (request : Request.t) (url : URL) : Request.t :=
  {| Request.url := altUrlString getBaseUrl (pathname url) +:+ search url;
     Request.method := Request.method request;
     Request.headers := outboundHeaders request;
     Request.body := None |}.

(** The response for a path outside the prefix (worker.js, line 62). *)
Definition notFoundResponse : Response.t := Response_text "Not Found" 404.

(** The response of the [catch] block (worker.js, lines 139-141). *)
Definition errorResponse (error : Error) : Response.t :=
  Response_text ("Error fetching from GitHub: " +:+ message error) 500.

(** The value the worker gives to a header name, if it is one of the three. *)
Definition fixedValue (name : string) : option string :=
  if String.eqb (lower name) "access-control-allow-origin" then Some "*"
  else if String.eqb (lower name) "access-control-allow-methods"
  then Some "GET, HEAD, OPTIONS"
  else if String.eqb (lower name) "cache-control"
  then Some "public, max-age=31536000, immutable"
  else None.

(** What spreading a [Headers] object into a record keeps under [name]: the
    combined value, or for [set-cookie] the last value only. *)
Definition spreadValue (h : Headers) (name : string) : option string :=
  if String.eqb (lower name) "set-cookie"
  then last (values_of h name)
  else Headers_get h name.

(** A value of the source followed by a value the worker appends. *)
Definition merged (upstream added : option string) : option string :=
  match upstream, added with
  | Some v, Some w => Some (v +:+ ", " +:+ w)
  | Some v, None => Some v
  | None, w => w
  end.

(** [o[k]]: the value of property [k], or [undefined]. *)
Fixpoint Object_get (o : JSObject) (k : string) : option string :=
  match o with
  | [] => None
  | (k', v) :: o' => if String.eqb k' k then Some v else Object_get o' k
  end.

(** The last value paired with [k] in a list of entries. *)
Fixpoint last_for (k : string) (l : list (string * string)) : option string :=
  match l with
  | [] => None
  | (k', v) :: l' =>
      match last_for k l' with
      | Some w => Some w
      | None => if String.eqb k' k then Some v else None
      end
  end.

(** A record whose names are in lower case and pairwise different. *)
Definition normal_record (o : JSObject) : Prop :=
  NoDup o.*1 ∧ Forall (λ kv, lower kv.1 = kv.1) o.

(** The header the worker sets on outbound requests, if [name] names it. *)
Definition userAgentValue (name : string) : option string :=
  if String.eqb (lower name) "user-agent" then Some USER_AGENT else None.



(** ** Sample data *)

Definition sample_request : Request.t :=
  {| Request.url := "https://media.uniquepetswiki.com/uploads/2020/01/a.jpg?w=10";
     Request.method := "GET";
     Request.headers := [("accept", "image/*"); ("user-agent", "curl/8.0")];
     Request.body := None |}.

Definition sample_url : URL :=
  {| origin := "https://media.uniquepetswiki.com";
     pathname := "/uploads/2020/01/a.jpg";
     query := Some "w=10";
     fragment := None |}.

Definition outside_request : Request.t :=
  {| Request.url := "https://media.uniquepetswiki.com/favicon.ico";
     Request.method := "POST";
     Request.headers := [("content-type", "text/plain")];
     Request.body := Some "ping" |}.

Definition outside_url : URL :=
  {| origin := "https://media.uniquepetswiki.com";
     pathname := "/favicon.ico";
     query := None;
     fragment := None |}.

(** Answers as the mirror gives them: it sets its own CORS and cache
    headers. *)
Definition sample_404 : Response.t :=
  {| Response.body := Some "Couldn't find the requested file.";
     Response.status := 404;
     Response.statusText := "Not Found";
     Response.headers :=
       [("content-type", "text/plain; charset=utf-8");
        ("access-control-allow-origin", "*");
        ("cache-control", "max-age=60")] |}.

Definition sample_200 : Response.t :=
  {| Response.body := Some "JFIF";
     Response.status := 200;
     Response.statusText := "OK";
     Response.headers :=
       [("content-type", "image/jpeg");
        ("access-control-allow-origin", "*");
        ("cache-control", "public, max-age=604800");
        ("set-cookie", "a=1");
        ("set-cookie", "b=2")] |}.

Definition sample_503 : Response.t :=
  {| Response.body := Some "Service Unavailable";
     Response.status := 503;
     Response.statusText := "Service Unavailable";
     Response.headers := [("cache-control", "no-store"); ("retry-after", "5")] |}.

Definition sample_error : Error := mkError "connection refused".

(** Networks: the mirror is down; it answers 404 then 200; it answers 404
    and then 503; it answers 404 and then goes down; it answers 200 at once;
    it answers 503. *)
Definition net_down : Network := λ _ _, Throw sample_error.
Definition net_404_200 : Network :=
  λ n _, if (n =? 0)%nat then Normal sample_404 else Normal sample_200.
Definition net_404_503 : Network :=
  λ n _, if (n =? 0)%nat then Normal sample_404 else Normal sample_503.
Definition net_404_404 : Network := λ _ _, Normal sample_404.
Definition net_404_down : Network :=
  λ n _, if (n =? 0)%nat then Normal sample_404 else Throw sample_error.
Definition net_200 : Network := λ _ _, Normal sample_200.

(** A [POST] under the prefix with a body and a doubled slash after the
    prefix, and a [TRACE] under the prefix. *)
Definition post_request : Request.t :=
  {| Request.url := "https://media.uniquepetswiki.com/uploads//2021/b.png";
     Request.method := "POST";
     Request.headers := [("content-length", "7"); ("user-agent", "curl/8.0")];
     Request.body := Some "payload" |}.

Definition post_url : URL :=
  {| origin := "https://media.uniquepetswiki.com";
     pathname := "/uploads//2021/b.png";
     query := None;
     fragment := None |}.

Definition trace_request : Request.t :=
  {| Request.url := "https://media.uniquepetswiki.com/uploads/2020/01/a.jpg";
     Request.method := "TRACE";
     Request.headers := [];
     Request.body := None |}.

(** * Properties *)

Example URL_new_example :
  URL_new "https://media.uniquepetswiki.com/uploads/2020/01/a.jpg?w=10" =
  Some (mkURL "https://media.uniquepetswiki.com" "/uploads/2020/01/a.jpg" (Some "w=10") None).
Proof. reflexivity. Qed.


(** ** Strings *)

Section string_facts.
Implicit Types s p r : string.

Lemma append_empty_r s : s +:+ "" = s.
Proof. induction s as [|c s IH]; simpl; [done | by rewrite IH]. Qed.

Lemma append_assoc s p r : (s +:+ p) +:+ r = s +:+ (p +:+ r).
Proof. induction s as [|c s IH]; simpl; [done | by rewrite IH]. Qed.

Lemma substring_whole s : String.substring 0 (String.length s) s = s.
Proof. induction s as [|c s IH]; simpl; [done | by rewrite IH]. Qed.

Lemma substring_zero s : JS.substring s 0 = s.
Proof. unfold JS.substring. rewrite Nat.sub_0_r. apply substring_whole. Qed.

Lemma substring_cons c s n : JS.substring (String c s) (S n) = JS.substring s n.
Proof. reflexivity. Qed.

Lemma substring_append p r : JS.substring (p +:+ r) (String.length p) = r.
Proof.
  induction p as [|c p IH]; simpl.
  - apply substring_zero.
  - by rewrite substring_cons.
Qed.

Lemma startsWith_append p r : JS.startsWith (p +:+ r) p = true.
Proof.
  unfold JS.startsWith. induction p as [|c p IH]; simpl.
  - by destruct r.
  - destruct (ascii_dec c c); [done | congruence].
Qed.

Lemma startsWith_split s p :
  JS.startsWith s p = true → s = p +:+ JS.substring s (String.length p).
Proof.
  unfold JS.startsWith. revert s. induction p as [|c p IH]; intros s H; simpl.
  - by rewrite substring_zero.
  - destruct s as [|d s]; simpl in H; [done |].
    destruct (ascii_dec c d) as [->|]; [| done].
    rewrite substring_cons. f_equal. by apply IH.
Qed.

Lemma length_append s p :
  String.length (s +:+ p) = (String.length s + String.length p)%nat.
Proof. induction s as [|c s IH]; simpl; [done | by rewrite IH]. Qed.

Lemma endsWith_append s p : JS.endsWith (s +:+ p) p = true.
Proof.
  unfold JS.endsWith. rewrite length_append.
  apply andb_true_iff; split.
  - apply Nat.leb_le. lia.
  - replace (String.length s + String.length p - String.length p)%nat
      with (String.length s) by lia.
    rewrite substring_append. apply String.eqb_refl.
Qed.
End string_facts.

(** ** The two pure helpers *)

Lemma getGitHubPath_prefix rest : getGitHubPath (PREFIX +:+ rest) = rest.
Proof.
  unfold getGitHubPath, JS.replace_anchored.
  rewrite startsWith_append, substring_append. reflexivity.
Qed.

Lemma getGitHubPath_other path :
  JS.startsWith path PREFIX = false → getGitHubPath path = path.
Proof. unfold getGitHubPath, JS.replace_anchored. by intros ->. Qed.

Lemma getGitHubPath_split path :
  JS.startsWith path PREFIX = true → path = PREFIX +:+ getGitHubPath path.
Proof.
  intros H. unfold getGitHubPath, JS.replace_anchored. rewrite H.
  by apply startsWith_split.
Qed.

Lemma cleanPath_slash r : cleanPath ("/" +:+ r) = r.
Proof.
  unfold cleanPath. rewrite (startsWith_append "/" r).
  exact (substring_append "/" r).
Qed.

Lemma cleanPath_no_slash r : JS.startsWith r "/" = false → cleanPath r = r.
Proof. unfold cleanPath. by intros ->. Qed.

Lemma getBaseUrl_eq :
  getBaseUrl = "https://cdn.jsdelivr.net/gh/crabvn/uniquepetswiki-uploads@main".
Proof. vm_compute. reflexivity. Qed.

Lemma targetUrlString_base githubPath :
  targetUrlString getBaseUrl githubPath = getBaseUrl +:+ "/" +:+ cleanPath githubPath.
Proof. rewrite getBaseUrl_eq. reflexivity. Qed.

Lemma altUrlString_base path :
  altUrlString getBaseUrl path = getBaseUrl +:+ "/wp-content" +:+ path.
Proof. rewrite getBaseUrl_eq. reflexivity. Qed.

(** ** The URL model *)

Lemma span_all p s : all_chars p s = true → span p s = (s, "").
Proof.
  induction s as [|c s IH]; simpl; [done |].
  intros [Hc Hs]%andb_true_iff. rewrite Hc, (IH Hs). reflexivity.
Qed.

Lemma span_app p a b :
  all_chars p a = true → span p (a +:+ b) = ((a +:+ (span p b).1), (span p b).2).
Proof.
  induction a as [|c a IH]; simpl.
  - intros _. by destruct (span p b).
  - intros [Hc Ha]%andb_true_iff. rewrite Hc, (IH Ha). reflexivity.
Qed.

Lemma span_taken p s : all_chars p (span p s).1 = true.
Proof.
  induction s as [|c s IH]; simpl; [done |].
  destruct (p c) eqn:Hc; [| done].
  destruct (span p s) as [taken rest]. simpl in *. by rewrite Hc, IH.
Qed.

Lemma all_chars_app p a b :
  all_chars p (a +:+ b) = all_chars p a && all_chars p b.
Proof.
  induction a as [|c a IH]; simpl; [done |]. by rewrite IH, andb_assoc.
Qed.

Lemma all_chars_substring p s n :
  all_chars p s = true → all_chars p (JS.substring s n) = true.
Proof.
  revert n. induction s as [|c s IH]; intros n H.
  - by destruct n.
  - destruct n as [|n]; [by rewrite substring_zero |].
    rewrite substring_cons. apply IH.
    simpl in H. by apply andb_true_iff in H as [_ ?].
Qed.

(** A parsed URL has no ["?"] or ["#"] in its pathname and no ["#"] in its
    query. *)
Lemma URL_new_wf s u :
  URL_new s = Some u →
  all_chars is_path_char (pathname u) = true ∧
  (∀ q, query u = Some q → all_chars is_query_char q = true).
Proof.
  unfold URL_new. destruct (strip_scheme s) as [[scheme rest]|]; [| done].
  destruct (span is_host_char rest) as [host rest1].
  destruct (String.eqb host ""); [done |].
  pose proof (span_taken is_path_char rest1) as Hpath.
  destruct (span is_path_char rest1) as [path rest2]. simpl in Hpath.
  unfold parse_query.
  destruct rest2 as [|c rest2].
  - intros [= <-]; simpl. split; [| done]. by destruct (String.eqb path "").
  - pose proof (span_taken is_query_char rest2) as Hq.
    destruct c as [[] [] [] [] [] [] [] []];
      try (intros [= <-]; simpl; split; [by destruct (String.eqb path "") | done]).
    destruct (span is_query_char rest2) as [q rest3]. simpl in Hq.
    intros [= <-]; simpl. split; [by destruct (String.eqb path "") |].
    by intros ? [= <-].
Qed.

(** Parsing an [https] URL whose host is followed by a path. *)
Lemma URL_new_https host rest :
  host ≠ "" → all_chars is_host_char host = true →
  URL_new ("https://" +:+ host +:+ "/" +:+ rest) =
    Some {| origin := "https://" +:+ host;
            pathname := "/" +:+ (span is_path_char rest).1;
            query := (parse_query (span is_path_char rest).2).1;
            fragment := parse_fragment (parse_query (span is_path_char rest).2).2 |}.
Proof.
  intros Hne Hhost. unfold URL_new, strip_scheme.
  rewrite (startsWith_append "https://").
  pose proof (substring_append "https://" (host +:+ "/" +:+ rest)) as Hrest.
  simpl String.length in Hrest. rewrite Hrest.
  rewrite (span_app _ _ _ Hhost). simpl span at 1 2. simpl fst. simpl snd.
  rewrite append_empty_r.
  destruct (String.eqb_spec host ""); [done |].
  simpl. destruct (span is_path_char rest) as [path rest2]. simpl.
  by destruct (parse_query rest2).
Qed.

Lemma getBaseUrl_split : getBaseUrl = "https://" +:+ BASE_HOST +:+ "/" +:+ BASE_DIR.
Proof. vm_compute. reflexivity. Qed.

Lemma base_append rest :
  getBaseUrl +:+ rest = "https://" +:+ BASE_HOST +:+ "/" +:+ BASE_DIR +:+ rest.
Proof. rewrite getBaseUrl_split. reflexivity. Qed.

(** Whatever follows the configured base, the result parses. *)
Lemma URL_new_base_total rest : is_Some (URL_new (getBaseUrl +:+ "/" +:+ rest)).
Proof.
  rewrite base_append, URL_new_https; [by eexists | done | reflexivity].
Qed.

(** Storing another URL's [search] in a URL without fragment appends it to
    the origin and pathname of the serialisation. *)
Lemma URL_toString_set_search t u :
  fragment t = None →
  URL_toString (set_search t (search u)) = origin t +:+ pathname t +:+ search u.
Proof.
  intros Hfrag. unfold URL_toString, set_search, search.
  destruct (query u) as [q|].
  - destruct (String.eqb_spec q "") as [->|Hq].
    + simpl. by rewrite Hfrag, !append_empty_r.
    + change (String.eqb ("?" +:+ q) "") with false.
      rewrite (startsWith_append "?" q).
      pose proof (substring_append "?" q) as Hsub. simpl String.length in Hsub.
      rewrite Hsub. cbn [origin pathname query fragment].
      by rewrite Hfrag, append_empty_r.
  - simpl. by rewrite Hfrag, !append_empty_r.
Qed.

Lemma URL_new_base_path path :
  all_chars is_path_char path = true →
  URL_new (getBaseUrl +:+ "/" +:+ path) =
    Some {| origin := "https://" +:+ BASE_HOST;
            pathname := "/" +:+ BASE_DIR +:+ "/" +:+ path;
            query := None; fragment := None |}.
Proof.
  intros Hpath. rewrite base_append, URL_new_https by done.
  assert (Hall : all_chars is_path_char (BASE_DIR +:+ "/" +:+ path) = true).
  { rewrite all_chars_app. apply andb_true_iff; split; [reflexivity | exact Hpath]. }
  by rewrite (span_all _ _ Hall).
Qed.

(** Parsing the base followed by a path, then storing a [search] string,
    serialises to the base, the path and the [search] string. *)
Lemma URL_base_search path u t :
  all_chars is_path_char path = true →
  URL_new (getBaseUrl +:+ "/" +:+ path) = Some t →
  URL_toString (set_search t (search u)) = getBaseUrl +:+ "/" +:+ path +:+ search u.
Proof.
  intros Hpath. rewrite (URL_new_base_path _ Hpath). intros [= <-].
  rewrite URL_toString_set_search by done.
  rewrite base_append. reflexivity.
Qed.


(** ** Header lists and header records *)

Lemma lower_ascii_idemp c : lower_ascii (lower_ascii c) = lower_ascii c.
Proof. destruct c as [[] [] [] [] [] [] [] []]; reflexivity. Qed.

Lemma lower_idemp s : lower (lower s) = lower s.
Proof.
  induction s as [|c s IH]; simpl; [done |]. by rewrite lower_ascii_idemp, IH.
Qed.

Lemma values_of_lower h name : values_of h (lower name) = values_of h name.
Proof.
  induction h as [|[k v] h IH]; simpl; [done |]. by rewrite lower_idemp, IH.
Qed.

Lemma values_of_app h1 h2 name :
  values_of (h1 ++ h2) name = (values_of h1 name ++ values_of h2 name)%list.
Proof.
  induction h1 as [|[k v] h1 IH]; simpl; [done |].
  destruct (String.eqb (lower k) (lower name)); simpl; by rewrite IH.
Qed.

Lemma Headers_new_id init : Headers_new init = init.
Proof.
  unfold Headers_new.
  enough (∀ h, foldl (λ h kv, Headers_append h kv.1 kv.2) h init = (h ++ init)%list)
    as H by apply H.
  induction init as [|[k v] init IH]; intros h; simpl.
  - by rewrite app_nil_r.
  - rewrite IH. unfold Headers_append. by rewrite <- app_assoc.
Qed.

Lemma Object_get_set o k v k' :
  Object_get (Object_set o k v) k' =
  if String.eqb k k' then Some v else Object_get o k'.
Proof.
  induction o as [|[k0 v0] o IH]; simpl.
  - done.
  - destruct (String.eqb_spec k0 k) as [->|Hne]; simpl.
    + by destruct (String.eqb k k').
    + rewrite IH. destruct (String.eqb_spec k0 k') as [->|]; [| done].
      by destruct (String.eqb_spec k k') as [->|].
Qed.

Lemma Object_get_fromEntries_acc l o k :
  Object_get (foldl (λ o kv, Object_set o kv.1 kv.2) o l) k =
  match last_for k l with Some w => Some w | None => Object_get o k end.
Proof.
  revert o. induction l as [|[k' v] l IH]; intros o; simpl; [done |].
  rewrite IH. destruct (last_for k l); [done |].
  rewrite Object_get_set. by destruct (String.eqb k' k).
Qed.

Lemma Object_get_fromEntries l k :
  Object_get (Object_fromEntries l) k = last_for k l.
Proof.
  unfold Object_fromEntries. rewrite Object_get_fromEntries_acc.
  by destruct (last_for k l).
Qed.

Lemma last_for_app k a b :
  last_for k (a ++ b) =
  match last_for k b with Some w => Some w | None => last_for k a end.
Proof.
  induction a as [|[k' v] a IH]; simpl.
  - by destruct (last_for k b).
  - rewrite IH. by destruct (last_for k b).
Qed.

Lemma last_for_pairs k values :
  last_for k (map (λ v, (k, v)) values) = last values.
Proof.
  induction values as [|v values IH]; simpl; [done |].
  rewrite IH, String.eqb_refl. by rewrite last_cons.
Qed.

Lemma last_for_other_pairs k n (values : list string) :
  n ≠ k → last_for k (map (λ v, (n, v)) values) = None.
Proof.
  intros Hne. induction values as [|v values IH]; simpl; [done |].
  rewrite IH. by destruct (String.eqb_spec n k).
Qed.

Lemma header_names_NoDup h : NoDup (header_names h).
Proof.
  unfold header_names. rewrite merge_sort_Permutation. apply NoDup_remove_dups.
Qed.

Lemma header_names_elem h k :
  k ∈ header_names h ↔ k ∈ map (λ kv, lower kv.1) h.
Proof.
  unfold header_names. by rewrite merge_sort_Permutation, elem_of_remove_dups.
Qed.

Lemma header_names_lower h k : k ∈ header_names h → lower k = k.
Proof.
  rewrite header_names_elem. intros ([k' v] & -> & _)%list_elem_of_fmap.
  apply lower_idemp.
Qed.

Lemma values_of_nil h k :
  values_of h k = [] ↔ lower k ∉ map (λ kv, lower kv.1) h.
Proof.
  induction h as [|[k' v] h IH]; simpl.
  - split; [intros _; apply not_elem_of_nil | done].
  - rewrite not_elem_of_cons.
    destruct (String.eqb_spec (lower k') (lower k)) as [Heq|Hne].
    + split; [done | intros [Hne _]; by destruct Hne].
    + rewrite IH. split; [intros ?; split; [congruence | done] | by intros [_ ?]].
Qed.

Lemma last_for_block h k :
  last_for k (header_block h k) =
  if String.eqb k "set-cookie" then last (values_of h k)
  else Some (join (values_of h k)).
Proof.
  unfold header_block. destruct (String.eqb k "set-cookie").
  - apply last_for_pairs.
  - simpl. by rewrite String.eqb_refl.
Qed.

Lemma last_for_other_block h k n : n ≠ k → last_for k (header_block h n) = None.
Proof.
  intros Hne. unfold header_block. destruct (String.eqb n "set-cookie").
  - by apply last_for_other_pairs.
  - simpl. by destruct (String.eqb_spec n k).
Qed.

Lemma last_for_blocks h k names :
  NoDup names →
  last_for k (flat_map (header_block h) names) =
  if decide (k ∈ names) then last_for k (header_block h k) else None.
Proof.
  induction names as [|n names IH]; intros Hnd; simpl.
  - by destruct (decide (k ∈ [])) as [?%elem_of_nil|].
  - apply NoDup_cons in Hnd as [Hn Hnd]. rewrite last_for_app, (IH Hnd).
    destruct (decide (k ∈ names)) as [Hin|Hout].
    + destruct (decide (k ∈ n :: names)) as [_|Hc]; [| by destruct Hc; right].
      destruct (last_for k (header_block h k)) eqn:Hk; [done |].
      apply last_for_other_block. by intros ->.
    + destruct (decide (k ∈ n :: names)) as [[->|?]%elem_of_cons|Hc]; [done..|].
      apply last_for_other_block. intros ->. apply Hc. by left.
Qed.

(** Spreading a [Headers] object into a record: the record has lower-case
    names only, each with the combined value, or for [set-cookie] with the
    last value. *)
Lemma Object_get_spread h k :
  Object_get (Object_fromEntries (Headers_entries h)) k =
  if String.eqb (lower k) k then spreadValue h k else None.
Proof.
  rewrite Object_get_fromEntries. unfold Headers_entries.
  rewrite (last_for_blocks _ _ _ (header_names_NoDup h)).
  destruct (decide (k ∈ header_names h)) as [Hin|Hout].
  - pose proof (header_names_lower _ _ Hin) as Hlow.
    rewrite Hlow, String.eqb_refl, last_for_block. unfold spreadValue, Headers_get.
    rewrite Hlow. destruct (String.eqb k "set-cookie"); [done |].
    apply header_names_elem in Hin. rewrite <- Hlow in Hin.
    destruct (values_of h k) eqn:Hv; [| done].
    by apply values_of_nil in Hv.
  - destruct (String.eqb_spec (lower k) k) as [Hlow|]; [| done].
    rewrite header_names_elem, <- Hlow in Hout.
    apply values_of_nil in Hout. unfold spreadValue, Headers_get.
    rewrite Hout. by destruct (String.eqb (lower k) "set-cookie").
Qed.

Lemma Object_set_keys o k v :
  (Object_set o k v).*1 = if decide (k ∈ o.*1) then o.*1 else (o.*1 ++ [k])%list.
Proof.
  induction o as [|[k' v'] o IH]; csimpl; [done |].
  destruct (String.eqb_spec k' k) as [->|Hne]; csimpl.
  - rewrite decide_True; [done | by left].
  - rewrite IH. destruct (decide (k ∈ o.*1)) as [Hin|Hout].
    + rewrite decide_True; [done | by right].
    + rewrite decide_False; [done |]. by intros [?|?]%elem_of_cons.
Qed.

Lemma Object_set_values o k v :
  Forall (λ kv, lower kv.1 = kv.1) o → lower k = k →
  Forall (λ kv, lower kv.1 = kv.1) (Object_set o k v).
Proof.
  intros Ho Hk. induction Ho as [|[k' v'] o Hk' Ho IH]; simpl.
  - by constructor.
  - destruct (String.eqb k' k); by constructor.
Qed.

Lemma Object_set_normal o k v :
  normal_record o → lower k = k → normal_record (Object_set o k v).
Proof.
  intros [Hnd Hlow] Hk. split; [| by apply Object_set_values].
  rewrite Object_set_keys. destruct (decide (k ∈ o.*1)); [done |].
  apply NoDup_app. split; [done |]. split; [| apply NoDup_singleton].
  intros x Hx ->%list_elem_of_singleton. done.
Qed.

Lemma Object_fromEntries_normal l :
  Forall (λ kv, lower kv.1 = kv.1) l → normal_record (Object_fromEntries l).
Proof.
  unfold Object_fromEntries.
  enough (∀ o, normal_record o → Forall (λ kv, lower kv.1 = kv.1) l →
               normal_record (foldl (λ o kv, Object_set o kv.1 kv.2) o l)) as H.
  { apply H. split; [apply NoDup_nil_2 | constructor]. }
  induction l as [|[k v] l IH]; intros o Ho Hl; simpl; [done |].
  apply Forall_cons in Hl as [Hk Hl]. apply IH; [| done].
  by apply Object_set_normal.
Qed.

Lemma Headers_entries_lower h :
  Forall (λ kv, lower kv.1 = kv.1) (Headers_entries h).
Proof.
  unfold Headers_entries.
  assert (Hnames : Forall (λ n, lower n = n) (header_names h)).
  { apply Forall_forall. intros n Hn. by apply header_names_lower with h. }
  induction Hnames as [|n names Hn _ IH]; simpl; [constructor |].
  apply Forall_app. split; [| done].
  unfold header_block. destruct (String.eqb n "set-cookie").
  - apply Forall_forall. intros [k v] (w & [= -> ->] & _)%list_elem_of_fmap. done.
  - by repeat constructor.
Qed.

Lemma spread_normal h : normal_record (Object_fromEntries (Headers_entries h)).
Proof. apply Object_fromEntries_normal, Headers_entries_lower. Qed.

Lemma lower_keys_map (o : JSObject) :
  Forall (λ kv, lower kv.1 = kv.1) o → map (λ kv, lower kv.1) o = o.*1.
Proof.
  induction 1 as [|[k v] o Hk _ IH]; csimpl; [done |].
  simpl in Hk. by rewrite Hk, IH.
Qed.

(** In a normal record at most one name matches. *)
Lemma values_of_normal o name :
  normal_record o → values_of o name = option_list (Object_get o (lower name)).
Proof.
  intros [Hnd Hlow]. induction o as [|[k v] o IH]; simpl; [done |].
  apply NoDup_cons in Hnd as [Hk Hnd]. apply Forall_cons in Hlow as [Hkl Hlow].
  simpl in Hkl. rewrite Hkl.
  destruct (String.eqb_spec k (lower name)) as [->|Hne]; [| by apply IH].
  simpl. f_equal. apply values_of_nil.
  by rewrite (lower_keys_map _ Hlow).
Qed.

Lemma Object_set_fresh o k v :
  Forall (λ kv, kv.1 ≠ k) o → Object_set o k v = (o ++ [(k, v)])%list.
Proof.
  induction 1 as [|[k' v'] o Hk _ IH]; simpl; [done |].
  simpl in Hk. destruct (String.eqb_spec k' k); [done |]. by rewrite IH.
Qed.

Lemma normal_fresh o k :
  normal_record o → lower k ≠ k → Forall (λ kv, kv.1 ≠ k) o.
Proof.
  intros [_ Hlow] Hk. eapply Forall_impl; [exact Hlow |].
  intros [k' v'] Hk' Heq. simpl in *. congruence.
Qed.

Lemma spreadValue_lower h name : spreadValue h (lower name) = spreadValue h name.
Proof.
  unfold spreadValue, Headers_get. by rewrite lower_idemp, values_of_lower.
Qed.

Lemma values_of_spread h name :
  values_of (Object_fromEntries (Headers_entries h)) name =
  option_list (spreadValue h name).
Proof.
  rewrite (values_of_normal _ _ (spread_normal h)), Object_get_spread.
  by rewrite lower_idemp, String.eqb_refl, spreadValue_lower.
Qed.

Lemma get_merged up added :
  match (option_list up ++ option_list added)%list with
  | [] => None
  | values => Some (join values)
  end = merged up added.
Proof. by destruct up, added. Qed.

(** The record of a relayed response: the lower-case record of the upstream
    headers followed by the three fixed properties, whose names are not in
    lower case and so never replace an upstream property. *)
Lemma relayInit_eq response :
  relayInit response =
  (Object_fromEntries (Headers_entries (Response.headers response)) ++
   [("Access-Control-Allow-Origin", "*");
    ("Access-Control-Allow-Methods", "GET, HEAD, OPTIONS");
    ("Cache-Control", "public, max-age=31536000, immutable")])%list.
Proof.
  unfold relayInit.
  pose proof (spread_normal (Response.headers response)) as Hn.
  rewrite (Object_set_fresh _ "Access-Control-Allow-Origin");
    [| by apply normal_fresh].
  rewrite (Object_set_fresh _ "Access-Control-Allow-Methods");
    [| apply Forall_app; split; [by apply normal_fresh | by repeat constructor]].
  rewrite (Object_set_fresh _ "Cache-Control");
    [| repeat (apply Forall_app; split);
       [by apply normal_fresh | by repeat constructor ..]].
  by rewrite <- !app_assoc.
Qed.

Lemma fixed_values name :
  values_of [("Access-Control-Allow-Origin", "*");
             ("Access-Control-Allow-Methods", "GET, HEAD, OPTIONS");
             ("Cache-Control", "public, max-age=31536000, immutable")] name =
  option_list (fixedValue name).
Proof.
  unfold fixedValue. cbn [values_of].
  change (lower "Access-Control-Allow-Origin") with "access-control-allow-origin".
  change (lower "Access-Control-Allow-Methods") with "access-control-allow-methods".
  change (lower "Cache-Control") with "cache-control".
  rewrite !(String.eqb_sym _ (lower name)).
  destruct (String.eqb_spec (lower name) "access-control-allow-origin") as [->|];
    [reflexivity |].
  destruct (String.eqb_spec (lower name) "access-control-allow-methods") as [->|];
    [reflexivity |].
  by destruct (String.eqb_spec (lower name) "cache-control").
Qed.

(** What [get] returns on a relayed response: the upstream value as the
    spread keeps it, followed by the fixed value when the name is one of the
    three.  A fixed value does not replace an upstream value of that name. *)
Lemma relay_get response name :
  Headers_get (Response.headers (relay response)) name =
  merged (spreadValue (Response.headers response) name) (fixedValue name).
Proof.
  unfold relay, Response_stream. cbn [Response.headers].
  rewrite Headers_new_id, relayInit_eq. unfold Headers_get at 1.
  rewrite values_of_app, values_of_spread, fixed_values. apply get_merged.
Qed.

Lemma outboundInit_eq request :
  outboundInit request =
  (Object_fromEntries (Headers_entries (Request.headers request)) ++
   [("User-Agent", USER_AGENT)])%list.
Proof.
  unfold outboundInit. apply Object_set_fresh.
  by apply normal_fresh; [apply spread_normal |].
Qed.

(** What [get] returns on an outbound request. *)
Lemma outbound_get request name :
  Headers_get (outboundHeaders request) name =
  merged (spreadValue (Request.headers request) name) (userAgentValue name).
Proof.
  unfold outboundHeaders. rewrite Headers_new_id, outboundInit_eq.
  unfold Headers_get at 1. rewrite values_of_app, values_of_spread.
  rewrite <- get_merged. f_equal. unfold userAgentValue. cbn [values_of].
  change (lower "User-Agent") with "user-agent".
  rewrite (String.eqb_sym _ (lower name)).
  by destruct (String.eqb (lower name) "user-agent").
Qed.
(** ** The handler, unfolded *)

Lemma all_chars_getGitHubPath p path :
  all_chars p path = true → all_chars p (getGitHubPath path) = true.
Proof.
  intros H. unfold getGitHubPath, JS.replace_anchored.
  destruct (JS.startsWith path PREFIX); [| done].
  by apply all_chars_substring.
Qed.

Lemma all_chars_cleanPath p path :
  all_chars p path = true → all_chars p (cleanPath path) = true.
Proof.
  intros H. unfold cleanPath.
  destruct (JS.startsWith path "/"); [| done]. by apply all_chars_substring.
Qed.

Lemma primaryRequest_url request u :
  Request.url (primaryRequest request u) =
  getBaseUrl +:+ "/" +:+ cleanPath (getGitHubPath (pathname u)) +:+ search u.
Proof.
  unfold primaryRequest. cbn [Request.url].
  rewrite targetUrlString_base, !append_assoc. reflexivity.
Qed.

Lemma alternateRequest_url request u :
  Request.url (alternateRequest request u) =
  getBaseUrl +:+ "/" +:+ altPath (pathname u) +:+ search u.
Proof.
  unfold alternateRequest. cbn [Request.url].
  rewrite altUrlString_base, !append_assoc. reflexivity.
Qed.

(** A request outside [/uploads/] is answered without any fetch. *)
Lemma fetch_unfold_outside {Env} (request : Request.t) (env : Env) u net log :
  URL_new (Request.url request) = Some u →
  JS.startsWith (pathname u) PREFIX = false →
  Worker.fetch request env net log = (Normal notFoundResponse, log).
Proof.
  intros Hu Hpre. unfold Worker.fetch, new_URL. rewrite Hu.
  unfold mbind, M_mbind, M_bind, mret, M_mret, M_ret.
  change "/uploads/" with PREFIX. by rewrite Hpre.
Qed.

(** A request whose URL does not parse makes the handler throw. *)
Lemma fetch_unfold_invalid {Env} (request : Request.t) (env : Env) net log :
  URL_new (Request.url request) = None →
  Worker.fetch request env net log = (Throw (mkError "Invalid URL"), log).
Proof.
  intros Hu. unfold Worker.fetch, new_URL. rewrite Hu. reflexivity.
Qed.

Lemma Request_accepts_no_body method body :
  Request_accepts method body = true → Request_accepts method None = true.
Proof.
  unfold Request_accepts. intros [Hf _]%andb_true_iff. rewrite Hf.
  by rewrite andb_false_r.
Qed.

(** A request under [/uploads/] whose method or body the [Request]
    constructor rejects: the constructor call of lines 79-86 is outside the
    [try] block, so the handler throws before any fetch. *)
Lemma fetch_unfold_rejected {Env} (request : Request.t) (env : Env) u net log :
  URL_new (Request.url request) = Some u →
  JS.startsWith (pathname u) PREFIX = true →
  Request_accepts (Request.method request) (Request.body request) = false →
  Worker.fetch request env net log = (Throw (mkError "Invalid method or body"), log).
Proof.
  intros Hu Hpre Hrej. unfold Worker.fetch, new_URL. rewrite Hu.
  unfold mbind, M_mbind, M_bind, mret, M_mret, M_ret.
  change "/uploads/" with PREFIX. rewrite Hpre. cbn [negb].
  rewrite targetUrlString_base.
  destruct (URL_new_base_total (cleanPath (getGitHubPath (pathname u)))) as [t Ht].
  rewrite Ht. unfold new_Request, Request_new. by rewrite Hrej.
Qed.

(** A request under [/uploads/] that the [Request] constructor accepts: the
    handler as a decision tree over the answers of the network. *)
Lemma fetch_unfold {Env} (request : Request.t) (env : Env) u net log :
  URL_new (Request.url request) = Some u →
  JS.startsWith (pathname u) PREFIX = true →
  Request_accepts (Request.method request) (Request.body request) = true →
  Worker.fetch request env net log =
    let q1 := primaryRequest request u in
    let q2 := alternateRequest request u in
    match net (List.length log) q1 with
    | Throw e => (Normal (errorResponse e), log ++ [q1])%list
    | Normal r1 =>
        if Response.status r1 =? 404 then
          match net (S (List.length log)) q2 with
          | Throw e => (Normal (errorResponse e), log ++ [q1; q2])%list
          | Normal r2 =>
              (Normal (if Response.status r2 =? 200 then relay r2 else relay r1),
               log ++ [q1; q2])%list
          end
        else (Normal (relay r1), log ++ [q1])%list
    end.
Proof.
  intros Hu Hpre Hacc.
  pose proof (Request_accepts_no_body _ _ Hacc) as Hacc'.
  destruct (URL_new_wf _ _ Hu) as [Hpath _].
  assert (Hclean : all_chars is_path_char (cleanPath (getGitHubPath (pathname u))) = true)
    by by apply all_chars_cleanPath, all_chars_getGitHubPath.
  assert (Halt : all_chars is_path_char (altPath (pathname u)) = true).
  { unfold altPath. rewrite all_chars_app, Hpath. reflexivity. }
  unfold Worker.fetch, new_URL. rewrite Hu.
  unfold mbind, M_mbind, M_bind, mret, M_mret, M_ret.
  change "/uploads/" with PREFIX. rewrite Hpre. cbn [negb].
  rewrite targetUrlString_base.
  destruct (URL_new_base_total (cleanPath (getGitHubPath (pathname u)))) as [t Ht].
  rewrite Ht. cbn zeta.
  rewrite (URL_base_search _ u _ Hclean Ht).
  unfold new_Request, Request_new. rewrite Hacc, Hacc'.
  unfold try_catch, fetch, mret, M_mret, M_ret.
  replace {| Request.url := _; Request.method := _; Request.headers := _;
             Request.body := Request.body request |}
    with (primaryRequest request u)
    by (unfold primaryRequest, outboundHeaders;
        rewrite targetUrlString_base, !append_assoc; reflexivity).
  destruct (net (List.length log) (primaryRequest request u)) as [r1|e]; [| done].
  destruct (Response.status r1 =? 404); [| done].
  assert (Haltstr : altUrlString getBaseUrl (pathname u) = getBaseUrl +:+ "/" +:+ altPath (pathname u))
    by (rewrite altUrlString_base; reflexivity).
  rewrite Haltstr.
  destruct (URL_new_base_total (altPath (pathname u))) as [t' Ht'].
  rewrite Ht'. rewrite (URL_base_search _ u _ Halt Ht').
  replace {| Request.url := _; Request.method := _; Request.headers := _;
             Request.body := None |}
    with (alternateRequest request u)
    by (unfold alternateRequest, outboundHeaders;
        rewrite Haltstr, !append_assoc; reflexivity).
  rewrite length_app, Nat.add_1_r, <- app_assoc. cbn [app].
  destruct (net (S (List.length log)) (alternateRequest request u)) as [r2|e]; [| done].
  by destruct (Response.status r2 =? 200).
Qed.

(** Under the prefix, for a request the constructor accepts, the handler
    returns a response, after the primary request alone or the primary and
    the alternate request in this order. *)
Lemma run_inside {Env} (request : Request.t) (env : Env) (net : Network) u :
  URL_new (Request.url request) = Some u →
  JS.startsWith (pathname u) PREFIX = true →
  Request_accepts (Request.method request) (Request.body request) = true →
  ∃ resp, (Worker.run net request env).1 = Normal resp ∧
    ((Worker.run net request env).2 = [primaryRequest request u] ∨
     (Worker.run net request env).2 =
       [primaryRequest request u; alternateRequest request u]).
Proof.
  intros Hu Hpre Hacc. unfold Worker.run.
  rewrite (fetch_unfold request env u net [] Hu Hpre Hacc). cbn zeta. cbn [List.length].
  destruct (net 0%nat _) as [r1|e]; [| eauto].
  destruct (Response.status r1 =? 404); [| eauto].
  destruct (net 1%nat _) as [r2|e]; eauto.
Qed.

(** * The claims of the specification *)

(** C1, as the specification states it, fails: a request outside the prefix
    is answered 404 with the body ["Not Found"], which is not empty. *)
Lemma C1_body_not_empty :
  ¬ (∀ (request : Request.t) (net : Network) (u : URL),
       URL_new (Request.url request) = Some u →
       JS.startsWith (pathname u) PREFIX = false →
       ∃ resp, (Worker.run net request tt).1 = Normal resp ∧
               Response.status resp = 404 ∧
               (Response.body resp = None ∨ Response.body resp = Some "")).
Proof.
  intros H.
  destruct (H outside_request net_down outside_url eq_refl eq_refl)
    as (resp & Hrun & _ & Hbody).
  vm_compute in Hrun. injection Hrun as <-.
  destruct Hbody as [Hbody | Hbody]; discriminate Hbody.
Qed.

(** C1 (amended): every request whose path does not start with [/uploads/]
    is answered with status 404, the body ["Not Found"], no status text and
    no header but the content type the constructor gives to a text body,
    whatever its method, headers and body and whatever the network would
    answer; no outbound request is sent. *)
Theorem C1_outside_prefix_not_found {Env} (request : Request.t) (env : Env)
    (net : Network) (u : URL) :
  URL_new (Request.url request) = Some u →
  JS.startsWith (pathname u) PREFIX = false →
  Worker.run net request env =
    (Normal {| Response.body := Some "Not Found"; Response.status := 404;
               Response.statusText := "";
               Response.headers := [("content-type", "text/plain;charset=UTF-8")] |},
     []).
Proof. intros Hu Hpre. unfold Worker.run. by apply fetch_unfold_outside with u. Qed.

Lemma C1_outside_prefix_not_found_witness :
  Worker.run net_down outside_request tt =
    (Normal {| Response.body := Some "Not Found"; Response.status := 404;
               Response.statusText := "";
               Response.headers := [("content-type", "text/plain;charset=UTF-8")] |},
     []).
Proof.
  apply (C1_outside_prefix_not_found outside_request tt net_down outside_url);
    reflexivity.
Defined.

(** C2, as the specification states it, fails: an error thrown by the
    fallback fetch does not leave the handler. *)
Lemma C2_fallback_error_is_caught :
  ¬ (∀ (request : Request.t) (net : Network) (u : URL) (r1 : Response.t) (e : Error),
       URL_new (Request.url request) = Some u →
       JS.startsWith (pathname u) PREFIX = true →
       net 0%nat (primaryRequest request u) = Normal r1 →
       Response.status r1 = 404 →
       net 1%nat (alternateRequest request u) = Throw e →
       (Worker.run net request tt).1 = Throw e).
Proof.
  intros H.
  pose proof (H sample_request net_404_down sample_url sample_404 sample_error
                eq_refl eq_refl eq_refl eq_refl eq_refl) as Hrun.
  vm_compute in Hrun. discriminate Hrun.
Qed.

(** C2 (amended): the fallback fetch runs inside the same [try] block as the
    primary fetch.  When the primary answer has status 404 and the fallback
    fetch throws an error, the handler catches it and returns status 500 with
    the body ["Error fetching from GitHub: "] followed by the error's
    message, after exactly the two outbound requests. *)
Theorem C2_fallback_error_gives_500 {Env} (request : Request.t) (env : Env)
    (net : Network) (u : URL) (r1 : Response.t) (e : Error) :
  URL_new (Request.url request) = Some u →
  JS.startsWith (pathname u) PREFIX = true →
  Request_accepts (Request.method request) (Request.body request) = true →
  net 0%nat (primaryRequest request u) = Normal r1 →
  Response.status r1 = 404 →
  net 1%nat (alternateRequest request u) = Throw e →
  Worker.run net request env =
    (Normal {| Response.body := Some ("Error fetching from GitHub: " +:+ message e);
               Response.status := 500;
               Response.statusText := "";
               Response.headers := [("content-type", "text/plain;charset=UTF-8")] |},
     [primaryRequest request u; alternateRequest request u]).
Proof.
  intros Hu Hpre Hacc H1 Hst H2. unfold Worker.run.
  rewrite (fetch_unfold request env u net [] Hu Hpre Hacc). cbn zeta. cbn [List.length].
  by rewrite H1, Hst, H2.
Qed.

Lemma C2_fallback_error_gives_500_witness :
  Worker.run net_404_down sample_request tt =
    (Normal {| Response.body := Some "Error fetching from GitHub: connection refused";
               Response.status := 500;
               Response.statusText := "";
               Response.headers := [("content-type", "text/plain;charset=UTF-8")] |},
     [primaryRequest sample_request sample_url;
      alternateRequest sample_request sample_url]).
Proof.
  apply (C2_fallback_error_gives_500 sample_request tt net_404_down sample_url
           sample_404 sample_error); reflexivity.
Defined.

(** C3 fails on the code.  With the primary answer 404 and a fallback answer
    200 that carries the mirror's own [access-control-allow-origin],
    [cache-control] and two [set-cookie] headers, the final response has
    status 200 and the fallback's body, but the fixed values do not override
    the upstream ones: they are appended to them, and only the last
    [set-cookie] is relayed. *)
Theorem C3_fixed_headers_are_appended :
  ∃ resp,
    (Worker.run net_404_200 sample_request tt).1 = Normal resp ∧
    Response.status resp = 200 ∧
    Response.body resp = Response.body sample_200 ∧
    Headers_get (Response.headers resp) "Access-Control-Allow-Origin" = Some "*, *" ∧
    Headers_get (Response.headers resp) "Access-Control-Allow-Methods" =
      Some "GET, HEAD, OPTIONS" ∧
    Headers_get (Response.headers resp) "Cache-Control" =
      Some "public, max-age=604800, public, max-age=31536000, immutable" ∧
    Headers_get (Response.headers sample_200) "Set-Cookie" = Some "a=1, b=2" ∧
    Headers_get (Response.headers resp) "Set-Cookie" = Some "b=2".
Proof. eexists. vm_compute. repeat split. Qed.

(** C4 fails on the code, by the defect of C3.  With the primary answer 404
    and the fallback answer 503, the final response has status 404 and the
    primary's body and status text, and the fallback answer is discarded; but
    the fixed values are appended to the [access-control-allow-origin] and
    [cache-control] of the primary answer instead of overriding them. *)
Theorem C4_primary_relayed_headers_appended :
  ∃ resp,
    (Worker.run net_404_503 sample_request tt).1 = Normal resp ∧
    resp = relay sample_404 ∧
    Response.status resp = 404 ∧
    Response.body resp = Response.body sample_404 ∧
    Response.statusText resp = Response.statusText sample_404 ∧
    Headers_get (Response.headers resp) "Retry-After" = None ∧
    Headers_get (Response.headers resp) "Access-Control-Allow-Origin" = Some "*, *" ∧
    Headers_get (Response.headers resp) "Access-Control-Allow-Methods" =
      Some "GET, HEAD, OPTIONS" ∧
    Headers_get (Response.headers resp) "Cache-Control" =
      Some "max-age=60, public, max-age=31536000, immutable".
Proof. eexists. vm_compute. repeat split. Qed.

(** C5: for a request under the prefix, when the primary fetch throws an
    error with message [m], the handler returns status 500 with the body
    ["Error fetching from GitHub: "] followed by [m], so the body contains
    [m]; only the primary request has been sent. *)
Theorem C5_primary_error_gives_500 {Env} (request : Request.t) (env : Env)
    (net : Network) (u : URL) (e : Error) :
  URL_new (Request.url request) = Some u →
  JS.startsWith (pathname u) PREFIX = true →
  Request_accepts (Request.method request) (Request.body request) = true →
  net 0%nat (primaryRequest request u) = Throw e →
  ∃ resp,
    Worker.run net request env = (Normal resp, [primaryRequest request u]) ∧
    Response.status resp = 500 ∧
    Response.body resp = Some ("Error fetching from GitHub: " +:+ message e) ∧
    ∃ before after, Response.body resp = Some (before +:+ message e +:+ after).
Proof.
  intros Hu Hpre Hacc H1. exists (errorResponse e). split; [| split; [done |]].
  - unfold Worker.run.
    rewrite (fetch_unfold request env u net [] Hu Hpre Hacc). cbn zeta. cbn [List.length].
    by rewrite H1.
  - split; [done |]. exists "Error fetching from GitHub: ", "".
    cbn [errorResponse Response_text Response.body]. by rewrite append_empty_r.
Qed.

Lemma C5_primary_error_gives_500_witness :
  ∃ resp,
    Worker.run net_down sample_request tt =
      (Normal resp, [primaryRequest sample_request sample_url]) ∧
    Response.status resp = 500 ∧
    Response.body resp = Some ("Error fetching from GitHub: " +:+ message sample_error) ∧
    ∃ before after,
      Response.body resp = Some (before +:+ message sample_error +:+ after).
Proof.
  apply (C5_primary_error_gives_500 sample_request tt net_down sample_url sample_error);
    reflexivity.
Defined.

(** C6: the target URL is the base, one slash and the relative path, whether
    or not the base ends with a slash and whether or not the relative path
    starts with one; on the base and path of the specification the result is
    the expected text, also after parsing it, storing an empty [search] and
    serialising it. *)
Theorem C6_one_separating_slash (base rel : string) :
  JS.endsWith base "/" = false →
  JS.startsWith rel "/" = false →
  targetUrlString base rel = base +:+ "/" +:+ rel ∧
  targetUrlString (base +:+ "/") rel = base +:+ "/" +:+ rel ∧
  targetUrlString base ("/" +:+ rel) = base +:+ "/" +:+ rel ∧
  targetUrlString (base +:+ "/") ("/" +:+ rel) = base +:+ "/" +:+ rel ∧
  targetUrlString "https://cdn.example/gh/user/repo@main" "2020/01/img.jpg" =
    "https://cdn.example/gh/user/repo@main/2020/01/img.jpg" ∧
  targetUrlString "https://cdn.example/gh/user/repo@main/" "2020/01/img.jpg" =
    "https://cdn.example/gh/user/repo@main/2020/01/img.jpg" ∧
  (λ t, URL_toString (set_search t "")) <$>
    URL_new (targetUrlString "https://cdn.example/gh/user/repo@main" "2020/01/img.jpg") =
    Some "https://cdn.example/gh/user/repo@main/2020/01/img.jpg".
Proof.
  intros Hbase Hrel. unfold targetUrlString.
  rewrite Hbase, (endsWith_append base "/"), cleanPath_slash, (cleanPath_no_slash _ Hrel).
  rewrite append_assoc. repeat split; reflexivity.
Qed.

Lemma C6_one_separating_slash_witness :
  targetUrlString "https://cdn.example/gh/user/repo@main" "2020/01/img.jpg" =
    "https://cdn.example/gh/user/repo@main" +:+ "/" +:+ "2020/01/img.jpg" ∧
  targetUrlString ("https://cdn.example/gh/user/repo@main" +:+ "/") "/2020/01/img.jpg" =
    "https://cdn.example/gh/user/repo@main" +:+ "/" +:+ "2020/01/img.jpg".
Proof.
  pose proof (C6_one_separating_slash
                "https://cdn.example/gh/user/repo@main" "2020/01/img.jpg"
                eq_refl eq_refl) as (H1 & _ & _ & H4 & _).
  split; [exact H1 | exact H4].
Defined.

(** C7: stripping the prefix from [/uploads/] followed by any text [rest]
    gives back [rest] unchanged, and such a path is under the prefix.  The
    match is literal: a path that does not start with the exact text
    [/uploads/], such as [/Uploads/a.jpg], is left as it is. *)
Theorem C7_strip_prefix_exact (rest : string) :
  getGitHubPath ("/uploads/" +:+ rest) = rest ∧
  JS.startsWith ("/uploads/" +:+ rest) "/uploads/" = true ∧
  JS.startsWith "/Uploads/a.jpg" "/uploads/" = false ∧
  getGitHubPath "/Uploads/a.jpg" = "/Uploads/a.jpg" ∧
  getGitHubPath ("/uploads/" +:+ "") = "" ∧
  getGitHubPath ("/uploads/" +:+ "a%20b/../c") = "a%20b/../c" ∧
  getGitHubPath ("/uploads/" +:+ "/x") = "/x".
Proof.
  split; [exact (getGitHubPath_prefix rest) |].
  split; [exact (startsWith_append PREFIX rest) |].
  repeat split; reflexivity.
Qed.





(** C9: the URLs the handler fetches are functions of the configured base,
    the inbound pathname and the inbound [search] string alone.  Two requests
    with the same pathname and [search], whatever their origins, methods,
    headers and bodies and whatever the networks answer, are sent to the same
    target URL and, when the fallback runs, to the same alternate URL. *)
Theorem C9_target_url_depends_on_path_and_query {Env Env' : Type}
    (request request' : Request.t) (env : Env) (env' : Env')
    (net net' : Network) (u u' : URL) :
  URL_new (Request.url request) = Some u →
  URL_new (Request.url request') = Some u' →
  pathname u = pathname u' →
  search u = search u' →
  JS.startsWith (pathname u) PREFIX = true →
  Request_accepts (Request.method request) (Request.body request) = true →
  Request_accepts (Request.method request') (Request.body request') = true →
  let target := targetUrlString getBaseUrl (getGitHubPath (pathname u)) +:+ search u in
  let alternate := altUrlString getBaseUrl (pathname u) +:+ search u in
  (Request.url <$> (Worker.run net request env).2 = [target] ∨
   Request.url <$> (Worker.run net request env).2 = [target; alternate]) ∧
  (Request.url <$> (Worker.run net' request' env').2 = [target] ∨
   Request.url <$> (Worker.run net' request' env').2 = [target; alternate]).
Proof.
  intros Hu Hu' Hpath Hsearch Hpre Hacc Hacc' target alternate.
  assert (Hpre' : JS.startsWith (pathname u') PREFIX = true) by by rewrite <- Hpath.
  destruct (run_inside request env net u Hu Hpre Hacc) as (_ & _ & Hlog).
  destruct (run_inside request' env' net' u' Hu' Hpre' Hacc') as (_ & _ & Hlog').
  subst target alternate. split.
  - destruct Hlog as [-> | ->]; [left | right]; reflexivity.
  - rewrite Hpath, Hsearch.
    destruct Hlog' as [-> | ->]; [left | right]; reflexivity.
Qed.

Lemma C9_target_url_depends_on_path_and_query_witness :
  let target :=
    targetUrlString getBaseUrl (getGitHubPath (pathname sample_url))
      +:+ search sample_url in
  let alternate := altUrlString getBaseUrl (pathname sample_url) +:+ search sample_url in
  (Request.url <$> (Worker.run net_404_200 sample_request tt).2 = [target] ∨
   Request.url <$> (Worker.run net_404_200 sample_request tt).2 = [target; alternate]) ∧
  (Request.url <$>
     (Worker.run net_down
        {| Request.url := "http://other.example/uploads/2020/01/a.jpg?w=10#top";
           Request.method := "HEAD"; Request.headers := [];
           Request.body := None |} 7%nat).2 = [target] ∨
   Request.url <$>
     (Worker.run net_down
        {| Request.url := "http://other.example/uploads/2020/01/a.jpg?w=10#top";
           Request.method := "HEAD"; Request.headers := [];
           Request.body := None |} 7%nat).2 = [target; alternate]).
Proof.
  apply (C9_target_url_depends_on_path_and_query
           sample_request
           {| Request.url := "http://other.example/uploads/2020/01/a.jpg?w=10#top";
              Request.method := "HEAD"; Request.headers := [];
              Request.body := None |}
           tt 7%nat net_404_200 net_down sample_url
           {| origin := "http://other.example";
              pathname := "/uploads/2020/01/a.jpg";
              query := Some "w=10"; fragment := Some "top" |});
    reflexivity.
Defined.

(** C10, as the specification states it, fails: the [Request] constructor
    call of lines 79-86 is outside the [try] block, and it throws for a
    [TRACE] request under the prefix, so the handler throws. *)
Lemma C10_trace_request_throws :
  ¬ (∀ (request : Request.t) (net : Network) (u : URL),
       URL_new (Request.url request) = Some u →
       ∃ resp, (Worker.run net request tt).1 = Normal resp).
Proof.
  intros H.
  destruct (H trace_request net_200
              {| origin := "https://media.uniquepetswiki.com";
                 pathname := "/uploads/2020/01/a.jpg";
                 query := None; fragment := None |} eq_refl) as (resp & Hrun).
  vm_compute in Hrun. discriminate Hrun.
Qed.

(** C10 (amended): for every inbound request whose URL parses and that is
    outside the prefix, or whose method and body the [Request] constructor
    accepts, the handler returns a response and does not throw, after at most
    two outbound requests, whatever the network answers or throws; and the
    target and alternate URL texts built on the configured base parse for
    every inbound path. *)
Theorem C10_handler_total {Env} (request : Request.t) (env : Env)
    (net : Network) (u : URL) :
  URL_new (Request.url request) = Some u →
  JS.startsWith (pathname u) PREFIX = false ∨
  Request_accepts (Request.method request) (Request.body request) = true →
  (∃ resp, (Worker.run net request env).1 = Normal resp) ∧
  (List.length (Worker.run net request env).2 ≤ 2)%nat ∧
  (∀ path, is_Some (URL_new (targetUrlString getBaseUrl path)) ∧
           is_Some (URL_new (altUrlString getBaseUrl path))).
Proof.
  intros Hu Hok.
  assert (Hrun : (∃ resp, (Worker.run net request env).1 = Normal resp) ∧
                 (List.length (Worker.run net request env).2 ≤ 2)%nat).
  { destruct (JS.startsWith (pathname u) PREFIX) eqn:Hpre.
    - destruct Hok as [? | Hacc]; [done |].
      destruct (run_inside request env net u Hu Hpre Hacc)
        as (resp & Hresp & [Hlog | Hlog]);
        (split; [eauto | rewrite Hlog; simpl; lia]).
    - unfold Worker.run.
      rewrite (fetch_unfold_outside request env u net [] Hu Hpre).
      split; [eauto | simpl; lia]. }
  destruct Hrun as [Hresp Hlen]. split; [done |]. split; [done |].
  intros path. rewrite targetUrlString_base.
  replace (altUrlString getBaseUrl path)
    with (getBaseUrl +:+ "/" +:+ altPath path)
    by (rewrite altUrlString_base, getBaseUrl_eq; reflexivity).
  split; apply URL_new_base_total.
Qed.

Lemma C10_handler_total_witness :
  (∃ resp, (Worker.run net_404_down sample_request tt).1 = Normal resp) ∧
  (List.length (Worker.run net_404_down sample_request tt).2 ≤ 2)%nat ∧
  (∀ path, is_Some (URL_new (targetUrlString getBaseUrl path)) ∧
           is_Some (URL_new (altUrlString getBaseUrl path))).
Proof.
  apply (C10_handler_total sample_request tt net_404_down sample_url);
    [reflexivity | right; reflexivity].
Defined.
(** * Further properties of the handler *)

(** X3: a primary answer with status 404 is followed by exactly one more
    request, whatever the network then answers or throws.  That second
    request has the inbound method and the same header record as the first,
    but no body, also when the inbound request has one. *)
Theorem alternate_request_has_no_body {Env} (request : Request.t) (env : Env)
    (net : Network) (u : URL) (r1 : Response.t) :
  URL_new (Request.url request) = Some u →
  JS.startsWith (pathname u) PREFIX = true →
  Request_accepts (Request.method request) (Request.body request) = true →
  net 0%nat (primaryRequest request u) = Normal r1 →
  Response.status r1 = 404 →
  ∃ q1 q2, (Worker.run net request env).2 = [q1; q2] ∧
           Request.method q2 = Request.method request ∧
           Request.headers q2 = Request.headers q1 ∧
           Request.body q1 = Request.body request ∧
           Request.body q2 = None.
Proof.
  intros Hu Hpre Hacc H1 Hst.
  exists (primaryRequest request u), (alternateRequest request u).
  split; [| done].
  unfold Worker.run.
  rewrite (fetch_unfold request env u net [] Hu Hpre Hacc). cbn zeta. cbn [List.length].
  rewrite H1, Hst. cbn [Z.eqb Pos.eqb].
  by destruct (net 1%nat (alternateRequest request u)).
Qed.

Lemma alternate_request_has_no_body_witness :
  ∃ q1 q2, (Worker.run net_404_404 post_request tt).2 = [q1; q2] ∧
           Request.method q2 = Request.method post_request ∧
           Request.headers q2 = Request.headers q1 ∧
           Request.body q1 = Request.body post_request ∧
           Request.body q2 = None.
Proof.
  apply (alternate_request_has_no_body post_request tt net_404_404 post_url
           sample_404); reflexivity.
Defined.

(** X4: the URL mapping end to end.  For the inbound path [/uploads/]
    followed by [rest], where [rest] does not start with a slash, the primary
    request goes to [rest] under the jsDelivr root of the repository and the
    alternate request, if any, to [wp-content/uploads/] followed by [rest]
    under the same root, each followed by the inbound [search] string. *)
Theorem outbound_urls_for_upload_path {Env} (request : Request.t) (env : Env)
    (net : Network) (u : URL) (rest : string) :
  URL_new (Request.url request) = Some u →
  pathname u = "/uploads/" +:+ rest →
  JS.startsWith rest "/" = false →
  Request_accepts (Request.method request) (Request.body request) = true →
  let root := "https://cdn.jsdelivr.net/gh/crabvn/uniquepetswiki-uploads@main/" in
  Request.url <$> (Worker.run net request env).2 =
    [root +:+ rest +:+ search u] ∨
  Request.url <$> (Worker.run net request env).2 =
    [root +:+ rest +:+ search u;
     root +:+ "wp-content/uploads/" +:+ rest +:+ search u].
Proof.
  intros Hu Hpath Hrest Hacc root.
  assert (Hpre : JS.startsWith (pathname u) PREFIX = true)
    by (rewrite Hpath; apply (startsWith_append PREFIX)).
  assert (H1 : Request.url (primaryRequest request u) = root +:+ rest +:+ search u).
  { rewrite primaryRequest_url, Hpath.
    change ("/uploads/" +:+ rest) with (PREFIX +:+ rest).
    rewrite getGitHubPath_prefix, (cleanPath_no_slash _ Hrest), getBaseUrl_eq.
    reflexivity. }
  assert (H2 : Request.url (alternateRequest request u) =
               root +:+ "wp-content/uploads/" +:+ rest +:+ search u).
  { rewrite alternateRequest_url, Hpath, getBaseUrl_eq. unfold altPath.
    change ("wp-content" +:+ "/uploads/" +:+ rest)
      with ("wp-content/uploads/" +:+ rest).
    rewrite (append_assoc "wp-content/uploads/"). reflexivity. }
  destruct (run_inside request env net u Hu Hpre Hacc) as (_ & _ & [-> | ->]);
    [left | right]; cbn [fmap list_fmap]; by rewrite ?H1, ?H2.
Qed.

Lemma outbound_urls_for_upload_path_witness :
  let root := "https://cdn.jsdelivr.net/gh/crabvn/uniquepetswiki-uploads@main/" in
  Request.url <$> (Worker.run net_404_200 sample_request tt).2 =
    [root +:+ "2020/01/a.jpg" +:+ search sample_url] ∨
  Request.url <$> (Worker.run net_404_200 sample_request tt).2 =
    [root +:+ "2020/01/a.jpg" +:+ search sample_url;
     root +:+ "wp-content/uploads/" +:+ "2020/01/a.jpg" +:+ search sample_url].
Proof.
  apply (outbound_urls_for_upload_path sample_request tt net_404_200 sample_url
           "2020/01/a.jpg"); reflexivity.
Defined.

(** X5: only one slash is removed on each side of the join.  A relative
    path that starts with two slashes, or a base that ends with two, leaves a
    doubled slash in the target; an empty relative path gives the base
    followed by a single slash. *)
Theorem join_strips_one_slash_only (base rel : string) :
  JS.endsWith base "/" = false →
  targetUrlString base ("//" +:+ rel) = base +:+ "//" +:+ rel ∧
  targetUrlString (base +:+ "//") ("/" +:+ rel) = base +:+ "//" +:+ rel ∧
  targetUrlString base "" = base +:+ "/" ∧
  targetUrlString base "/" = base +:+ "/".
Proof.
  intros Hbase. unfold targetUrlString. rewrite Hbase.
  repeat split.
  - exact (f_equal (λ r, base +:+ "/" +:+ r) (cleanPath_slash ("/" +:+ rel))).
  - change (base +:+ "//") with (base +:+ "/" +:+ "/").
    rewrite <- (append_assoc base "/" "/").
    rewrite (endsWith_append (base +:+ "/") "/"), (cleanPath_slash rel).
    by rewrite !append_assoc.
Qed.

Lemma join_strips_one_slash_only_witness :
  targetUrlString getBaseUrl ("//" +:+ "2021/b.png") = getBaseUrl +:+ "//" +:+ "2021/b.png" ∧
  targetUrlString (getBaseUrl +:+ "//") ("/" +:+ "2021/b.png") =
    getBaseUrl +:+ "//" +:+ "2021/b.png" ∧
  targetUrlString getBaseUrl "" = getBaseUrl +:+ "/" ∧
  targetUrlString getBaseUrl "/" = getBaseUrl +:+ "/".
Proof.
  apply (join_strips_one_slash_only getBaseUrl "2021/b.png"). reflexivity.
Defined.

Lemma length_substring s n :
  String.length (JS.substring s n) = (String.length s - n)%nat.
Proof.
  revert n. induction s as [|c s IH]; intros [|n]; try reflexivity.
  - by rewrite substring_zero.
  - rewrite substring_cons, IH. reflexivity.
Qed.

Lemma length_getGitHubPath path :
  (String.length (getGitHubPath path) ≤ String.length path)%nat.
Proof.
  unfold getGitHubPath, JS.replace_anchored.
  destruct (JS.startsWith path PREFIX); [| lia].
  cbn [String.append]. rewrite length_substring. lia.
Qed.

Lemma length_cleanPath path :
  (String.length (cleanPath path) ≤ String.length path)%nat.
Proof.
  unfold cleanPath. destruct (JS.startsWith path "/"); [| lia].
  rewrite length_substring. lia.
Qed.

(** X6: the fallback never asks for the URL the primary request asked for:
    for every inbound request the two outbound URLs are different texts. *)
Theorem alternate_url_differs_from_primary (request : Request.t) (u : URL) :
  Request.url (primaryRequest request u) ≠ Request.url (alternateRequest request u).
Proof.
  rewrite primaryRequest_url, alternateRequest_url. intros Heq.
  apply (f_equal String.length) in Heq.
  rewrite !length_append in Heq. unfold altPath in Heq.
  rewrite length_append in Heq. cbn [String.length] in Heq.
  pose proof (length_getGitHubPath (pathname u)).
  pose proof (length_cleanPath (getGitHubPath (pathname u))).
  lia.
Qed.

(** X8: [getGitHubPath] removes the prefix and nothing else: putting
    [/uploads/] back in front of the result of a path that starts with it
    gives the path, and every other path is returned as it is (also when
    [/uploads/] occurs later in it). *)
Theorem getGitHubPath_inverse (path : string) :
  (if JS.startsWith path "/uploads/"
   then "/uploads/" +:+ getGitHubPath path
   else getGitHubPath path) = path.
Proof.
  destruct (JS.startsWith path "/uploads/") eqn:Hpre.
  - symmetry. by apply getGitHubPath_split.
  - by apply getGitHubPath_other.
Qed.

(** X10: the handler asks the network at most twice and looks at nothing
    else: two networks that agree on the answer to the primary request and on
    the answer to the alternate request give the same response and the same
    log, whatever they would answer to other or later requests. *)
Theorem result_depends_on_two_answers {Env} (request : Request.t) (env : Env)
    (net net' : Network) (u : URL) :
  URL_new (Request.url request) = Some u →
  net 0%nat (primaryRequest request u) = net' 0%nat (primaryRequest request u) →
  net 1%nat (alternateRequest request u) = net' 1%nat (alternateRequest request u) →
  Worker.run net request env = Worker.run net' request env.
Proof.
  intros Hu H1 H2. unfold Worker.run.
  destruct (JS.startsWith (pathname u) PREFIX) eqn:Hpre.
  - destruct (Request_accepts (Request.method request) (Request.body request))
      eqn:Hacc.
    + rewrite !(fetch_unfold request env u _ [] Hu Hpre Hacc).
      cbn zeta. cbn [List.length]. by rewrite H1, H2.
    + by rewrite !(fetch_unfold_rejected request env u _ [] Hu Hpre Hacc).
  - by rewrite !(fetch_unfold_outside request env u _ [] Hu Hpre).
Qed.

Lemma result_depends_on_two_answers_witness :
  Worker.run net_404_404 sample_request tt =
  Worker.run (λ n q, if (n <=? 1)%nat then Normal sample_404 else Throw sample_error)
    sample_request tt.
Proof.
  apply (result_depends_on_two_answers sample_request tt net_404_404
           (λ n q, if (n <=? 1)%nat then Normal sample_404 else Throw sample_error)
           sample_url); reflexivity.
Defined.

Lemma startsWith_length s p :
  JS.startsWith s p = true → (String.length p ≤ String.length s)%nat.
Proof.
  unfold JS.startsWith. revert s. induction p as [|c p IH]; intros s H; simpl.
  - lia.
  - destruct s as [|d s]; simpl in H; [done |].
    destruct (ascii_dec c d); [| done]. apply IH in H.
    cbn [String.length]. lia.
Qed.

(** X11: the trailing slash belongs to the prefix.  A path shorter than the
    nine characters of [/uploads/], such as [/] or [/uploads], is answered
    404 ["Not Found"] without any fetch. *)
Theorem short_path_not_found {Env} (request : Request.t) (env : Env)
    (net : Network) (u : URL) :
  URL_new (Request.url request) = Some u →
  (String.length (pathname u) < 9)%nat →
  Worker.run net request env = (Normal notFoundResponse, []).
Proof.
  intros Hu Hlen. unfold Worker.run.
  apply fetch_unfold_outside with u; [done |].
  destruct (JS.startsWith (pathname u) PREFIX) eqn:Hpre; [| done].
  apply startsWith_length in Hpre.
  change (String.length PREFIX) with 9%nat in Hpre. lia.
Qed.

Lemma short_path_not_found_witness :
  Worker.run net_200
    {| Request.url := "https://media.uniquepetswiki.com/uploads";
       Request.method := "GET"; Request.headers := []; Request.body := None |} tt =
  (Normal notFoundResponse, []).
Proof.
  apply (short_path_not_found
           {| Request.url := "https://media.uniquepetswiki.com/uploads";
              Request.method := "GET"; Request.headers := []; Request.body := None |}
           tt net_200
           {| origin := "https://media.uniquepetswiki.com"; pathname := "/uploads";
              query := None; fragment := None |});
    [reflexivity | cbn; lia].
Defined.

(** X12: one extra slash after the prefix does not change the primary
    target: [/uploads//] followed by [rest] is first fetched from the URL
    that [/uploads/] followed by [rest] is fetched from, when [rest] does not
    start with a slash. *)
Theorem extra_slash_same_primary_target {Env} (request request' : Request.t)
    (env : Env) (net net' : Network) (u u' : URL) (rest : string) :
  URL_new (Request.url request) = Some u →
  URL_new (Request.url request') = Some u' →
  pathname u = "/uploads/" +:+ rest →
  pathname u' = "/uploads//" +:+ rest →
  JS.startsWith rest "/" = false →
  search u = search u' →
  Request_accepts (Request.method request) (Request.body request) = true →
  Request_accepts (Request.method request') (Request.body request') = true →
  ∃ q q', (Worker.run net request env).2 !! 0%nat = Some q ∧
          (Worker.run net' request' env).2 !! 0%nat = Some q' ∧
          Request.url q = Request.url q'.
Proof.
  intros Hu Hu' Hpath Hpath' Hrest Hsearch Hacc Hacc'.
  assert (Hpre : JS.startsWith (pathname u) PREFIX = true)
    by (rewrite Hpath; apply (startsWith_append PREFIX)).
  assert (Hpre' : JS.startsWith (pathname u') PREFIX = true)
    by (rewrite Hpath'; apply (startsWith_append PREFIX ("/" +:+ rest))).
  exists (primaryRequest request u), (primaryRequest request' u').
  destruct (run_inside request env net u Hu Hpre Hacc) as (_ & _ & Hlog).
  destruct (run_inside request' env net' u' Hu' Hpre' Hacc') as (_ & _ & Hlog').
  split; [by destruct Hlog as [-> | ->] |].
  split; [by destruct Hlog' as [-> | ->] |].
  rewrite !primaryRequest_url, Hpath, Hpath', Hsearch.
  change ("/uploads/" +:+ rest) with (PREFIX +:+ rest).
  change ("/uploads//" +:+ rest) with (PREFIX +:+ "/" +:+ rest).
  rewrite !getGitHubPath_prefix, cleanPath_slash, (cleanPath_no_slash _ Hrest).
  reflexivity.
Qed.

Lemma extra_slash_same_primary_target_witness :
  ∃ q q',
    (Worker.run net_200
       {| Request.url := "https://media.uniquepetswiki.com/uploads/2021/b.png";
          Request.method := "GET"; Request.headers := []; Request.body := None |}
       tt).2 !! 0%nat = Some q ∧
    (Worker.run net_404_404 post_request tt).2 !! 0%nat = Some q' ∧
    Request.url q = Request.url q'.
Proof.
  apply (extra_slash_same_primary_target
           {| Request.url := "https://media.uniquepetswiki.com/uploads/2021/b.png";
              Request.method := "GET"; Request.headers := []; Request.body := None |}
           post_request tt net_200 net_404_404
           {| origin := "https://media.uniquepetswiki.com";
              pathname := "/uploads/2021/b.png";
              query := None; fragment := None |}
           post_url "2021/b.png"); reflexivity.
Defined.



(** X2: the first request the handler sends for a path under the prefix
    keeps the inbound method and body.  Under each name it has the inbound
    value; under [User-Agent] the worker's agent string comes after the
    inbound agent, if there is one, and does not replace it. *)
Theorem primary_request_forwards {Env} (request : Request.t) (env : Env)
    (net : Network) (u : URL) :
  URL_new (Request.url request) = Some u →
  JS.startsWith (pathname u) PREFIX = true →
  Request_accepts (Request.method request) (Request.body request) = true →
  ∃ q, (Worker.run net request env).2 !! 0%nat = Some q ∧
       Request.method q = Request.method request ∧
       Request.body q = Request.body request ∧
       Headers_get (Request.headers q) "User-Agent" =
         merged (Headers_get (Request.headers request) "User-Agent")
                (Some "Mozilla/5.0 (compatible; CloudflareWorker/1.0)") ∧
       ∀ name, Headers_get (Request.headers q) name =
               merged (spreadValue (Request.headers request) name)
                      (userAgentValue name).
Proof.
  intros Hu Hpre Hacc. exists (primaryRequest request u).
  destruct (run_inside request env net u Hu Hpre Hacc) as (_ & _ & Hlog).
  split; [by destruct Hlog as [-> | ->] |].
  cbn [primaryRequest Request.method Request.body Request.headers].
  repeat split; [| apply outbound_get]. by rewrite outbound_get.
Qed.

Lemma primary_request_forwards_witness :
  ∃ q, (Worker.run net_200 post_request tt).2 !! 0%nat = Some q ∧
       Request.method q = Request.method post_request ∧
       Request.body q = Request.body post_request ∧
       Headers_get (Request.headers q) "User-Agent" =
         merged (Headers_get (Request.headers post_request) "User-Agent")
                (Some "Mozilla/5.0 (compatible; CloudflareWorker/1.0)") ∧
       ∀ name, Headers_get (Request.headers q) name =
               merged (spreadValue (Request.headers post_request) name)
                      (userAgentValue name).
Proof.
  apply (primary_request_forwards post_request tt net_200 post_url); reflexivity.
Defined.

(** X7: every response of the handler is either built locally (the 404 for
    a path outside the prefix, the 500 of the [catch] block) or is the relay
    of an answer the network gave.  A locally built response has the text
    content type and none of the three CORS and cache headers. *)
Theorem response_is_local_or_relayed {Env} (request : Request.t) (env : Env)
    (net : Network) (u : URL) :
  URL_new (Request.url request) = Some u →
  JS.startsWith (pathname u) PREFIX = false ∨
  Request_accepts (Request.method request) (Request.body request) = true →
  ∃ resp, (Worker.run net request env).1 = Normal resp ∧
    (((resp = notFoundResponse ∨ ∃ e, resp = errorResponse e) ∧
      Response.headers resp = [("content-type", "text/plain;charset=UTF-8")] ∧
      Headers_get (Response.headers resp) "Access-Control-Allow-Origin" = None ∧
      Headers_get (Response.headers resp) "Access-Control-Allow-Methods" = None ∧
      Headers_get (Response.headers resp) "Cache-Control" = None) ∨
     (∃ n q r, net n q = Normal r ∧ resp = relay r)).
Proof.
  intros Hu Hok. destruct (JS.startsWith (pathname u) PREFIX) eqn:Hpre.
  - destruct Hok as [? | Hacc]; [done |]. unfold Worker.run.
    rewrite (fetch_unfold request env u net [] Hu Hpre Hacc). cbn zeta. cbn [List.length].
    destruct (net 0%nat _) as [r1|e] eqn:H1;
      [| exists (errorResponse e); split; [done | left; repeat split; eauto]].
    destruct (Response.status r1 =? 404);
      [| exists (relay r1); split; [done | right; eauto]].
    destruct (net 1%nat _) as [r2|e] eqn:H2;
      [| exists (errorResponse e); split; [done | left; repeat split; eauto]].
    destruct (Response.status r2 =? 200);
      eexists; (split; [done | right; eauto]).
  - unfold Worker.run. rewrite (fetch_unfold_outside request env u net [] Hu Hpre).
    exists notFoundResponse. split; [done | left; repeat split; eauto].
Qed.

Lemma response_is_local_or_relayed_witness :
  ∃ resp, (Worker.run net_404_down sample_request tt).1 = Normal resp ∧
    (((resp = notFoundResponse ∨ ∃ e, resp = errorResponse e) ∧
      Response.headers resp = [("content-type", "text/plain;charset=UTF-8")] ∧
      Headers_get (Response.headers resp) "Access-Control-Allow-Origin" = None ∧
      Headers_get (Response.headers resp) "Access-Control-Allow-Methods" = None ∧
      Headers_get (Response.headers resp) "Cache-Control" = None) ∨
     (∃ n q r, net_404_down n q = Normal r ∧ resp = relay r)).
Proof.
  apply (response_is_local_or_relayed sample_request tt net_404_down sample_url);
    [reflexivity | right; reflexivity].
Defined.

(** X9: relaying keeps the upstream value of every header that is neither
    one of the three fixed names nor [set-cookie], whatever the letter case
    of the name asked for; of several upstream [set-cookie] headers only the
    last is relayed, because the spread into a record keeps one value per
    name. *)
Theorem relay_keeps_other_headers (response : Response.t) (name : string) :
  fixedValue name = None →
  lower name ≠ "set-cookie" →
  Headers_get (Response.headers (relay response)) name =
    Headers_get (Response.headers response) name ∧
  Headers_get (Response.headers (relay response)) "Set-Cookie" =
    last (values_of (Response.headers response) "Set-Cookie").
Proof.
  intros Hfixed Hname. rewrite !relay_get, Hfixed. unfold spreadValue.
  destruct (String.eqb_spec (lower name) "set-cookie"); [done |].
  split; [by destruct (Headers_get _ name) | by destruct (last _)].
Qed.

Lemma relay_keeps_other_headers_witness :
  Headers_get (Response.headers (relay sample_200)) "Content-Type" =
    Headers_get (Response.headers sample_200) "Content-Type" ∧
  Headers_get (Response.headers (relay sample_200)) "Set-Cookie" =
    last (values_of (Response.headers sample_200) "Set-Cookie").
Proof.
  apply (relay_keeps_other_headers sample_200 "Content-Type");
    [reflexivity | discriminate].
Defined.
